(** * emtime: the [Timer] class of [emtime.py]

    Two shallow embeddings of [emtime.Timer].

    [Timer] idealises Python floats as exact rationals ([Q]): [+], [-], [/]
    are the field operations and [//] is the floor of the quotient.  A
    value whose magnitude reaches [float_overflow] stands for the float
    [inf], on which [int(...)] raises [OverflowError]; below it
    [int(...)] truncates toward zero.  The object's attributes form a
    record, [time.perf_counter()] is an oracle read through a counter, and
    raised exceptions are explicit results.  This module carries the
    properties that do not depend on how binary64 rounds.

    [Binary64] transliterates the tick and elapsed-ticks methods on
    primitive binary64 floats, to evaluate the code where rounding or
    overflow decides a boolean or an exception. *)

From Stdlib Require Import ZArith QArith Qround Qabs Bool Lia Lqa List.
From Stdlib Require Floats.PrimFloat Floats.SpecFloat Floats.FloatOps.
Import ListNotations.

Open Scope Q_scope.

Module Timer.

(** ** Attributes of a [Timer] instance (set in [__init__]) *)

Record t : Type := mk {
  _interval    : Q;
  _t0          : Q;
  _t_last      : Q;
  _t_last_tick : Q;
  _is_paused   : bool;
  _has_ticked  : bool;
  _accum_time  : Q
}.

Definition set_t0 (v : Q) (s : t) : t :=
  mk (_interval s) v (_t_last s) (_t_last_tick s)
     (_is_paused s) (_has_ticked s) (_accum_time s).

Definition set_t_last (v : Q) (s : t) : t :=
  mk (_interval s) (_t0 s) v (_t_last_tick s)
     (_is_paused s) (_has_ticked s) (_accum_time s).

Definition set_t_last_tick (v : Q) (s : t) : t :=
  mk (_interval s) (_t0 s) (_t_last s) v
     (_is_paused s) (_has_ticked s) (_accum_time s).

Definition set_is_paused (v : bool) (s : t) : t :=
  mk (_interval s) (_t0 s) (_t_last s) (_t_last_tick s)
     v (_has_ticked s) (_accum_time s).

Definition set_has_ticked (v : bool) (s : t) : t :=
  mk (_interval s) (_t0 s) (_t_last s) (_t_last_tick s)
     (_is_paused s) v (_accum_time s).

Definition set_accum_time (v : Q) (s : t) : t :=
  mk (_interval s) (_t0 s) (_t_last s) (_t_last_tick s)
     (_is_paused s) (_has_ticked s) v.

(** ** Float primitives, over exact rationals *)

(** [a > b] *)
Definition Qgtb (a b : Q) : bool := negb (Qle_bool a b).

(** Truncation toward zero, the value of [int(x)] for a finite [x]. *)
Definition truncate (x : Q) : Z := Z.quot (Qnum x) (Zpos (Qden x)).

(** The least magnitude that binary64 rounds to [inf]:
    [2^1024 - 2^970]. *)
Definition float_overflow : Q := inject_Z (2 ^ 1024 - 2 ^ 970).

(** [x] stands for [inf] or [-inf].  The rationals do not saturate, so a
    value computed from one that overflows need not overflow itself: what
    is asserted about a returning [int(...)] below is asserted only where
    the operands are inside the range too. *)
Definition overflows (x : Q) : bool := Qle_bool float_overflow (Qabs x).

(** The value of [a // b] for a non-zero [b]. *)
Definition floordiv (a b : Q) : Q := inject_Z (Qfloor (a / b)).

(** ** Effects: the instance, the clock and exceptions *)

Inductive exn : Type := ZeroDivisionError | OverflowError.

(** The world is the instance [self] and the number of clock reads made so
    far. *)
Definition World : Type := (t * nat)%type.

(** A call either returns a value or raises; the instance is mutated in
    place, so both outcomes carry the world they leave behind. *)
Inductive outcome (A : Type) : Type :=
| Returns (a : A) (w : World)
| Raises (e : exn) (w : World).

Arguments Returns {A} a w.
Arguments Raises {A} e w.

(** The world a call leaves behind, whichever way it ends. *)
Definition world_of {A} (o : outcome A) : World :=
  match o with
  | Returns _ w => w
  | Raises _ w => w
  end.

Definition M (A : Type) : Type := World -> outcome A.

Definition ret {A} (a : A) : M A := fun w => Returns a w.

Definition raise {A} (e : exn) : M A := fun w => Raises e w.

Definition bind {A B} (m : M A) (k : A -> M B) : M B :=
  fun w => match m w with
           | Raises e w' => Raises e w'
           | Returns a w' => k a w'
           end.

Notation "x <- m ;; k" := (bind m (fun x => k))
  (at level 61, m at next level, right associativity).
Notation "m ;;; k" := (bind m (fun _ => k))
  (at level 61, right associativity).

(** [self.f] *)
Definition attr {A} (f : t -> A) : M A := fun w => Returns (f (fst w)) w.

(** [self.f = v], through the setter of [f] *)
Definition assign (upd : t -> t) : M unit :=
  fun w => Returns tt (upd (fst w), snd w).

(** [a / b]; a quotient whose magnitude reaches [float_overflow] stands
    for [inf]. *)
Definition truediv (a b : Q) : M Q :=
  if Qeq_bool b 0 then raise ZeroDivisionError else ret (a / b).

(** [a // b] *)
Definition floordiv_checked (a b : Q) : M Q :=
  if Qeq_bool b 0 then raise ZeroDivisionError else ret (floordiv a b).

(** [int(x)] *)
Definition int_of_float (x : Q) : M Z :=
  if overflows x then raise OverflowError else ret (truncate x).

Section WithClock.

(** [perf n] is the value of the [n]-th call of [time.perf_counter()]. *)
Variable perf : nat -> Q.

Definition perf_counter : M Q :=
  fun w => Returns (perf (snd w)) (fst w, S (snd w)).

(** ** The methods *)

(** [Timer(interval, is_paused)], called after [reads] clock reads; it has
    no raising operation, so it yields the new world directly. *)
Definition __init__ (interval : Q) (is_paused : bool) (reads : nat) : World :=
  let t0 := perf reads in
  let t_last := perf (S reads) in
  let t_last_tick := perf (S (S reads)) in
  (mk interval t0 t_last t_last_tick is_paused false 0, S (S (S reads))).

(** The anchor update is exact here; what binary64 rounding makes of it is
    evaluated in [Binary64.tick_delta]. *)
Definition tick_delta : M Q :=
  now <- perf_counter ;;
  last <- attr _t_last_tick ;;
  let tick_delta := now - last in
  interval <- attr _interval ;;
  (if Qgtb tick_delta interval then
     assign (set_has_ticked true) ;;;
     old <- attr _t_last_tick ;;
     divisor <- attr _interval ;;
     q <- floordiv_checked tick_delta divisor ;;
     factor <- attr _interval ;;
     assign (set_t_last_tick (old + q * factor))
   else ret tt) ;;;
  now' <- perf_counter ;;
  last' <- attr _t_last_tick ;;
  ret (now' - last').

Definition tick : M bool :=
  tick_delta ;;;
  has_ticked <- attr _has_ticked ;;
  if has_ticked then
    assign (set_has_ticked false) ;;;
    ret true
  else ret false.

Definition elapsed : M Q :=
  is_paused <- attr _is_paused ;;
  if is_paused then attr _accum_time
  else
    tick ;;;
    now <- perf_counter ;;
    t0 <- attr _t0 ;;
    accum <- attr _accum_time ;;
    ret ((now - t0) + accum).

Definition elapsed_ticks : M Q :=
  e <- elapsed ;;
  interval <- attr _interval ;;
  truediv e interval.

Definition elapsed_ticks_int : M Z :=
  x <- elapsed_ticks ;;
  int_of_float x.

Definition delta : M Q :=
  now <- perf_counter ;;
  last <- attr _t_last ;;
  let dt := now - last in
  assign (set_t_last now) ;;;
  ret dt.

Definition reset : M unit :=
  now <- perf_counter ;;
  assign (set_t0 now).

Definition pause : M unit :=
  old <- attr _accum_time ;;
  e <- elapsed ;;
  assign (set_accum_time (old + e)) ;;;
  assign (set_is_paused true).

Definition resume : M unit :=
  assign (set_is_paused false) ;;;
  now <- perf_counter ;;
  assign (set_t0 now) ;;;
  reset.

(** ** The public surface, as one dispatcher *)

Inductive call : Type :=
| GetElapsed | GetElapsedTicksInt | GetElapsedTicks
| GetTickDelta | GetTick | GetDelta
| DoReset | DoPause | DoResume.

Inductive value : Type :=
| VFloat (x : Q)
| VInt (z : Z)
| VBool (b : bool)
| VNone.

Definition invoke (c : call) : M value :=
  match c with
  | GetElapsed => x <- elapsed ;; ret (VFloat x)
  | GetElapsedTicksInt => z <- elapsed_ticks_int ;; ret (VInt z)
  | GetElapsedTicks => x <- elapsed_ticks ;; ret (VFloat x)
  | GetTickDelta => x <- tick_delta ;; ret (VFloat x)
  | GetTick => b <- tick ;; ret (VBool b)
  | GetDelta => x <- delta ;; ret (VFloat x)
  | DoReset => reset ;;; ret VNone
  | DoPause => pause ;;; ret VNone
  | DoResume => resume ;;; ret VNone
  end.

(** A client reading the [elapsed] property [k] times in a row. *)
Fixpoint poll_elapsed (k : nat) : M (list Q) :=
  match k with
  | O => ret []
  | S k' => x <- elapsed ;; xs <- poll_elapsed k' ;; ret (x :: xs)
  end.

(** The clock never goes backwards. *)
Definition monotonic : Prop := forall n, perf n <= perf (S n).

(** Worlds that a program can bring a timer to: construction with a
    positive interval, then any sequence of returning calls. *)
Inductive reachable : World -> Prop :=
| reach_new interval is_paused reads :
    0 < interval -> reachable (__init__ interval is_paused reads)
| reach_call c w v w' :
    reachable w -> invoke c w = Returns v w' -> reachable w'.

(** A client making the calls [cs] one after the other. *)
Fixpoint run_calls (cs : list call) : M (list value) :=
  match cs with
  | [] => ret []
  | c :: cs' => v <- invoke c ;; vs <- run_calls cs' ;; ret (v :: vs)
  end.

(** A client reading the [delta] property [k] times in a row. *)
Fixpoint poll_delta (k : nat) : M (list Q) :=
  match k with
  | O => ret []
  | S k' => x <- delta ;; xs <- poll_delta k' ;; ret (x :: xs)
  end.

(** The property reads, as opposed to the three methods. *)
Definition is_read (c : call) : bool :=
  match c with
  | DoReset | DoPause | DoResume => false
  | _ => true
  end.

(** The world a returning call leaves, computed directly. *)
Definition call_world (c : call) (w : World) : World :=
  let s := fst w in
  let n := snd w in
  let raw := perf n - _t_last_tick s in
  let checked :=
    if Qgtb raw (_interval s) then
      set_t_last_tick
        (_t_last_tick s + floordiv raw (_interval s) * _interval s)
        (set_has_ticked true s)
    else s in
  let settled := set_has_ticked false checked in
  match c with
  | GetElapsed | GetElapsedTicksInt | GetElapsedTicks =>
      if _is_paused s then (s, n) else (settled, S (S (S n)))
  | GetTickDelta => (checked, S (S n))
  | GetTick => (settled, S (S n))
  | GetDelta => (set_t_last (perf n) s, S n)
  | DoReset => (set_t0 (perf n) s, S n)
  | DoPause =>
      if _is_paused s then
        (set_is_paused true
           (set_accum_time (_accum_time s + _accum_time s) s), n)
      else
        (set_is_paused true
           (set_accum_time
              (_accum_time s + ((perf (S (S n)) - _t0 s) + _accum_time s))
              settled), S (S (S n)))
  | DoResume =>
      (set_t0 (perf (S n)) (set_t0 (perf n) (set_is_paused false s)),
       S (S n))
  end.

(** What every reachable world satisfies under a monotonic clock: the
    interval is positive, the bank is non-negative and the origin of the
    running segment is not ahead of the clock. *)
Definition consistent (w : World) : Prop :=
  0 < _interval (fst w) /\
  0 <= _accum_time (fst w) /\
  _t0 (fst w) <= perf (snd w).

End WithClock.

(** The state the boundary check of [tick_delta] leaves, for a first clock
    reading [now] and a non-zero interval. *)
Definition boundary_check (now : Q) (s : t) : t :=
  let raw := now - _t_last_tick s in
  if Qgtb raw (_interval s) then
    set_t_last_tick
      (_t_last_tick s + floordiv raw (_interval s) * _interval s)
      (set_has_ticked true s)
  else s.

(** The sum of a list of floats, as [sum(xs)] computes it. *)
Definition Qsum (xs : list Q) : Q := fold_right Qplus 0 xs.

(** ** Sample clocks and instances *)

(** A clock that advances by a tenth of a second per read. *)
Definition tenths (n : nat) : Q := inject_Z (Z.of_nat n) / 10.

(** A clock that stands still at [x]. *)
Definition frozen (x : Q) (n : nat) : Q := x.

(** A running timer with interval [1], all timestamps [0], nothing banked. *)
Definition fresh : t := mk 1 0 0 0 false false 0.

(** The same with a tenth of a second as interval. *)
Definition decisecond : t := mk (1#10) 0 0 0 false false 0.

(** A paused timer with three tenths of a second banked. *)
Definition parked : t := mk 1 0 0 0 true false (3#10).

(** A clock that advances by one second per read. *)
Definition seconds (n : nat) : Q := inject_Z (Z.of_nat n).

(** The least positive binary64 value, [2^-1074] (printed [5e-324]). *)
Definition least_positive : Q := 1 # (2 ^ 1074).

(** Timers constructed with a zero interval, paused and running. *)
Definition stalled : t := mk 0 0 0 0 true false 0.
Definition degenerate : t := mk 0 0 0 0 false false 0.

(** ** Basic facts *)

Lemma Qgtb_true (a b : Q) : Qgtb a b = true <-> b < a.
Proof.
  unfold Qgtb. rewrite negb_true_iff, <- not_true_iff_false, Qle_bool_iff.
  split; [apply Qnot_le_lt | apply Qlt_not_le].
Qed.

Lemma Qgtb_false (a b : Q) : Qgtb a b = false <-> a <= b.
Proof.
  unfold Qgtb. rewrite negb_false_iff. apply Qle_bool_iff.
Qed.

Lemma Qeq_bool_false (a b : Q) : ~ a == b -> Qeq_bool a b = false.
Proof.
  intros H. apply not_true_iff_false. now rewrite Qeq_bool_iff.
Qed.

Lemma set_has_ticked_same (s : t) : set_has_ticked (_has_ticked s) s = s.
Proof. now destruct s. Qed.

Lemma positive_nonzero (x : Q) : 0 < x -> ~ x == 0.
Proof. intros H E. rewrite E in H. now apply Qlt_irrefl in H. Qed.

Section Properties.

Variable perf : nat -> Q.

Lemma boundary_check_within (now : Q) (s : t) :
  now - _t_last_tick s <= _interval s -> boundary_check now s = s.
Proof.
  intros H. unfold boundary_check. apply Qgtb_false in H. now rewrite H.
Qed.

Lemma boundary_check_crossed (now : Q) (s : t) :
  _interval s < now - _t_last_tick s ->
  boundary_check now s =
  set_t_last_tick
    (_t_last_tick s + floordiv (now - _t_last_tick s) (_interval s)
                      * _interval s)
    (set_has_ticked true s).
Proof.
  intros H. unfold boundary_check. apply Qgtb_true in H. now rewrite H.
Qed.

(** *** What each method computes, as one equation *)

Ltac run :=
  unfold invoke, resume, pause, reset, delta, elapsed_ticks_int,
    elapsed_ticks, elapsed, tick, tick_delta, truediv, floordiv_checked,
    perf_counter, assign, attr, bind, ret, raise; cbn [fst snd].

Lemma tick_delta_run (s : t) (n : nat) :
  ~ _interval s == 0 ->
  tick_delta perf (s, n) =
  Returns (perf (S n) - _t_last_tick (boundary_check (perf n) s))
          (boundary_check (perf n) s, S (S n)).
Proof.
  intros Hi. run. unfold boundary_check.
  destruct (Qgtb (perf n - _t_last_tick s) (_interval s)); cbn.
  - now rewrite (Qeq_bool_false _ _ Hi).
  - reflexivity.
Qed.

Lemma tick_run (s : t) (n : nat) :
  ~ _interval s == 0 ->
  tick perf (s, n) =
  Returns (_has_ticked (boundary_check (perf n) s))
          (set_has_ticked false (boundary_check (perf n) s), S (S n)).
Proof.
  intros Hi. unfold tick, bind. rewrite (tick_delta_run _ _ Hi).
  unfold attr, assign, ret; cbn [fst snd].
  destruct (_has_ticked (boundary_check (perf n) s)) eqn:E.
  - reflexivity.
  - now rewrite <- E, set_has_ticked_same.
Qed.

Lemma elapsed_paused_run (s : t) (n : nat) :
  _is_paused s = true ->
  elapsed perf (s, n) = Returns (_accum_time s) (s, n).
Proof.
  intros Hp. unfold elapsed, bind, attr; cbn [fst snd]. now rewrite Hp.
Qed.

Lemma elapsed_running_run (s : t) (n : nat) :
  _is_paused s = false -> ~ _interval s == 0 ->
  elapsed perf (s, n) =
  Returns ((perf (S (S n)) - _t0 s) + _accum_time s)
          (set_has_ticked false (boundary_check (perf n) s), S (S (S n))).
Proof.
  intros Hp Hi. unfold elapsed, bind at 1, attr at 1; cbn [fst snd].
  rewrite Hp. unfold bind at 1. rewrite (tick_run _ _ Hi).
  unfold boundary_check.
  destruct (Qgtb (perf n - _t_last_tick s) (_interval s)); reflexivity.
Qed.

Lemma boundary_check_frame (now : Q) (s : t) :
  _interval (boundary_check now s) = _interval s /\
  _t0 (boundary_check now s) = _t0 s /\
  _t_last (boundary_check now s) = _t_last s /\
  _is_paused (boundary_check now s) = _is_paused s /\
  _accum_time (boundary_check now s) = _accum_time s.
Proof.
  unfold boundary_check.
  destruct (Qgtb (now - _t_last_tick s) (_interval s)); repeat split.
Qed.


Lemma elapsed_ticks_run (s : t) (n : nat) :
  ~ _interval s == 0 ->
  elapsed_ticks perf (s, n) =
  match elapsed perf (s, n) with
  | Returns e w => Returns (e / _interval s) w
  | Raises e w => Raises e w
  end.
Proof.
  intros Hi. unfold elapsed_ticks, bind at 1.
  destruct (_is_paused s) eqn:Hp.
  - rewrite (elapsed_paused_run _ _ Hp).
    unfold bind, attr, truediv; cbn [fst snd].
    now rewrite (Qeq_bool_false _ _ Hi).
  - rewrite (elapsed_running_run _ _ Hp Hi).
    unfold bind, attr, truediv; cbn [fst snd].
    destruct (boundary_check_frame (perf n) s) as [Hb _].
    change (_interval (set_has_ticked false (boundary_check (perf n) s)))
      with (_interval (boundary_check (perf n) s)).
    rewrite Hb. now rewrite (Qeq_bool_false _ _ Hi).
Qed.

Lemma truncate_nonneg (x : Q) : 0 <= x -> truncate x = Qfloor x.
Proof.
  destruct x as [p q]. unfold Qle, truncate, Qfloor. cbn.
  intros H. apply Z.quot_div_nonneg; lia.
Qed.

Lemma monotonic_le (n m : nat) :
  monotonic perf -> (n <= m)%nat -> perf n <= perf m.
Proof.
  intros Hm Hle. induction Hle as [|m Hle IH].
  - apply Qle_refl.
  - eapply Qle_trans; [exact IH | apply Hm].
Qed.

Lemma elapsed_ticks_int_run (s : t) (n : nat) :
  elapsed_ticks_int perf (s, n) =
  match elapsed_ticks perf (s, n) with
  | Returns q w =>
      if overflows q then Raises OverflowError w else Returns (truncate q) w
  | Raises e w => Raises e w
  end.
Proof.
  unfold elapsed_ticks_int, bind.
  destruct (elapsed_ticks perf (s, n)) as [q w|e w]; [|reflexivity].
  unfold int_of_float, raise, ret. now destruct (overflows q).
Qed.

(** With a non-zero interval a call returns and leaves [call_world],
    except that [elapsed_ticks_int] may end in [OverflowError], leaving the
    same world. *)
Lemma invoke_run (c : call) (s : t) (n : nat) :
  ~ _interval s == 0 ->
  (exists v, invoke perf c (s, n) = Returns v (call_world perf c (s, n))) \/
  (c = GetElapsedTicksInt /\
   invoke perf c (s, n) = Raises OverflowError (call_world perf c (s, n))).
Proof.
  intros Hi.
  pose proof (elapsed_running_run s n) as Er.
  pose proof (tick_delta_run s n Hi) as Td.
  pose proof (tick_run s n Hi) as Tk.
  unfold boundary_check in Er, Td, Tk.
  remember (invoke perf c (s, n)) as o eqn:Ho.
  unfold call_world; cbn [fst snd].
  destruct c; unfold invoke, bind at 1 in Ho.
  all: try rewrite elapsed_ticks_int_run in Ho.
  all: try rewrite (elapsed_ticks_run _ _ Hi) in Ho.
  all: try unfold pause, bind at 1, attr at 1, bind at 1 in Ho.
  all: destruct (_is_paused s) eqn:Hp.
  all: try rewrite (elapsed_paused_run _ _ Hp) in Ho.
  all: try rewrite (Er eq_refl Hi) in Ho.
  all: try rewrite Td in Ho.
  all: try rewrite Tk in Ho.
  all: try (left; eexists; exact Ho).
  all: match type of Ho with
       | context [overflows ?q] => destruct (overflows q)
       end.
  all: solve [left; eexists; exact Ho | right; split; [reflexivity | exact Ho]].
Qed.

Lemma invoke_consistent (c : call) (w w' : World) (v : value) :
  monotonic perf -> consistent perf w ->
  invoke perf c w = Returns v w' -> consistent perf w'.
Proof.
  intros Hm [Hpos [Hacc Ht0]] Hrun. destruct w as [s n]. cbn [fst snd] in *.
  pose proof (positive_nonzero _ Hpos) as Hi.
  pose proof (Hm n) as M0. pose proof (Hm (S n)) as M1.
  pose proof (Hm (S (S n))) as M2.
  destruct (invoke_run c s n Hi) as [[v' Hv] | [_ Hv]];
    rewrite Hv in Hrun; [|discriminate Hrun].
  injection Hrun as _ Hw. subst w'.
  unfold consistent, call_world; cbn [fst snd].
  destruct c; destruct (_is_paused s);
    destruct (Qgtb (perf n - _t_last_tick s) (_interval s));
    cbn; repeat split; try assumption; lra.
Qed.

Lemma reachable_consistent (w : World) :
  monotonic perf -> reachable perf w -> consistent perf w.
Proof.
  intros Hm Hr. induction Hr as [i p r Hpos | c w v w' Hr IH Hrun].
  - unfold consistent, __init__; cbn. repeat split; try assumption.
    + apply Qle_refl.
    + apply monotonic_le; [assumption | lia].
  - eapply invoke_consistent; eassumption.
Qed.

(** *** Claims *)

(** C1. While paused, [elapsed] returns [_accum_time] and leaves the world
    as it was, so any number of repeated reads all return that same value;
    while running (with a non-zero interval) it returns
    [(now - _t0) + _accum_time], where [now] is the clock reading taken for
    the result (the third read of the call, after the two of the tick
    check). *)
Theorem elapsed_paused_or_running (s : t) (n : nat) :
  (_is_paused s = true ->
   elapsed perf (s, n) = Returns (_accum_time s) (s, n) /\
   forall k, poll_elapsed perf k (s, n) =
             Returns (repeat (_accum_time s) k) (s, n)) /\
  (_is_paused s = false -> ~ _interval s == 0 ->
   exists s', elapsed perf (s, n) =
              Returns ((perf (S (S n)) - _t0 s) + _accum_time s)
                      (s', S (S (S n)))).
Proof.
  split.
  - intros Hp. split; [now apply elapsed_paused_run|].
    induction k as [|k IH]; [reflexivity|].
    cbn [poll_elapsed repeat]. unfold bind at 1.
    rewrite (elapsed_paused_run _ _ Hp). unfold bind at 1. now rewrite IH.
  - intros Hp Hi. eexists. now apply elapsed_running_run.
Qed.

(** C2. With [raw = now - _t_last_tick] for the first clock reading [now]:
    if [raw > _interval] then [tick_delta] sets [_has_ticked] and advances
    [_t_last_tick] by [floor(raw / _interval) * _interval]; otherwise it
    leaves the instance alone; in both cases it returns the second clock
    reading minus the resulting [_t_last_tick], and touches no other
    attribute. *)
Theorem tick_delta_bulk_advance (s : t) (n : nat) :
  ~ _interval s == 0 ->
  let raw := perf n - _t_last_tick s in
  exists s',
    tick_delta perf (s, n) =
      Returns (perf (S n) - _t_last_tick s') (s', S (S n)) /\
    (_interval s < raw ->
       _has_ticked s' = true /\
       _t_last_tick s' =
         _t_last_tick s + inject_Z (Qfloor (raw / _interval s)) * _interval s) /\
    (raw <= _interval s -> s' = s) /\
    _interval s' = _interval s /\ _t0 s' = _t0 s /\ _t_last s' = _t_last s /\
    _is_paused s' = _is_paused s /\ _accum_time s' = _accum_time s.
Proof.
  intros Hi raw. exists (boundary_check (perf n) s).
  split; [now apply tick_delta_run|].
  unfold boundary_check. fold raw.
  destruct (Qgtb raw (_interval s)) eqn:E.
  - apply Qgtb_true in E. repeat split; try reflexivity.
    intros Hle. exfalso. eapply Qlt_not_le; eassumption.
  - apply Qgtb_false in E. repeat split; try reflexivity;
      exfalso; eapply Qlt_not_le; eassumption.
Qed.

Lemma tick_quiet (s : t) (m : nat) :
  ~ _interval s == 0 -> _has_ticked s = false ->
  perf m - _t_last_tick s <= _interval s ->
  tick perf (s, m) = Returns false (s, S (S m)).
Proof.
  intros Hi Hf Hle. rewrite (tick_run _ _ Hi).
  rewrite (boundary_check_within _ _ Hle), Hf.
  now rewrite <- Hf, set_has_ticked_same.
Qed.

(** [tick] runs [tick_delta], then returns the flag that call left and
    leaves the flag cleared.  When the first clock reading is more than one
    interval past [_t_last_tick], the call returns [True]; a following
    [tick] whose reading is within one interval of the advanced anchor
    returns [False]. *)
Lemma tick_reads_and_clears (s : t) (n : nat) :
  tick perf (s, n) =
    match tick_delta perf (s, n) with
    | Returns _ (s1, n1) =>
        Returns (_has_ticked s1) (set_has_ticked false s1, n1)
    | Raises e w => Raises e w
    end /\
  (~ _interval s == 0 -> _interval s < perf n - _t_last_tick s ->
   exists s1,
     tick perf (s, n) = Returns true (s1, S (S n)) /\
     _has_ticked s1 = false /\
     (perf (S (S n)) - _t_last_tick s1 <= _interval s ->
      tick perf (s1, S (S n)) = Returns false (s1, S (S (S (S n)))))).
Proof.
  split.
  - unfold tick, bind at 1.
    destruct (tick_delta perf (s, n)) as [x [s1 n1]|e w]; [|reflexivity].
    unfold bind, attr, assign, ret; cbn [fst snd].
    destruct (_has_ticked s1) eqn:E; [reflexivity|].
    now rewrite <- E, set_has_ticked_same.
  - intros Hi Hraw.
    destruct (boundary_check_frame (perf n) s) as (B1 & _).
    exists (set_has_ticked false (boundary_check (perf n) s)).
    split; [|split; [reflexivity|]].
    + rewrite (tick_run _ _ Hi).
      now rewrite (boundary_check_crossed _ _ Hraw).
    + intros Hle. apply tick_quiet.
      * exact (eq_ind_r (fun x => ~ x == 0) Hi B1).
      * reflexivity.
      * change (_interval (set_has_ticked false (boundary_check (perf n) s)))
          with (_interval (boundary_check (perf n) s)).
        now rewrite B1.
Qed.

(** C4, as amended.  While running (non-zero interval), [elapsed] performs
    the boundary check: [_t_last_tick] ends up where [tick_delta] on the same
    world would leave it, but [_has_ticked] ends up [False], because the
    check goes through the consuming [tick]; no other attribute changes, and
    the returned value [(now - _t0) + _accum_time] is the same whatever the
    tick attributes were.  While paused, [elapsed] returns before any
    bookkeeping and leaves the world untouched. *)
Theorem elapsed_tick_bookkeeping (s : t) (n : nat) :
  (_is_paused s = false -> ~ _interval s == 0 ->
   exists e s1 x s2,
     elapsed perf (s, n) = Returns e (s1, S (S (S n))) /\
     tick_delta perf (s, n) = Returns x (s2, S (S n)) /\
     _t_last_tick s1 = _t_last_tick s2 /\
     _has_ticked s1 = false /\
     s1 = set_has_ticked false s2 /\
     e = (perf (S (S n)) - _t0 s) + _accum_time s /\
     forall last flag,
       exists s1',
         elapsed perf (set_t_last_tick last (set_has_ticked flag s), n) =
         Returns e (s1', S (S (S n)))) /\
  (_is_paused s = true ->
   elapsed perf (s, n) = Returns (_accum_time s) (s, n)).
Proof.
  split.
  - intros Hp Hi.
    exists ((perf (S (S n)) - _t0 s) + _accum_time s),
           (set_has_ticked false (boundary_check (perf n) s)),
           (perf (S n) - _t_last_tick (boundary_check (perf n) s)),
           (boundary_check (perf n) s).
    repeat split.
    + now apply elapsed_running_run.
    + now apply tick_delta_run.
    + intros last flag. eexists.
      now rewrite elapsed_running_run.
  - apply elapsed_paused_run.
Qed.

Lemma pause_banks_elapsed_eq (s : t) (n : nat) :
  pause perf (s, n) =
    match elapsed perf (s, n) with
    | Returns e (s1, n1) =>
        Returns tt
          (set_is_paused true (set_accum_time (_accum_time s + e) s1), n1)
    | Raises e w => Raises e w
    end.
Proof.
  unfold pause, bind at 1, attr at 1; cbn [fst snd]. unfold bind at 1.
  destruct (elapsed perf (s, n)) as [e [s1 n1]|e w]; reflexivity.
Qed.

(** C5. [pause] adds the value of [elapsed] to the [_accum_time] it had
    and then sets [_is_paused]; on a timer that is already paused with
    banked value [a] this leaves it paused with [_accum_time] equal to
    [2 * a], every other attribute and the clock untouched. *)
Theorem pause_banks_elapsed (s : t) (n : nat) :
  pause perf (s, n) =
    match elapsed perf (s, n) with
    | Returns e (s1, n1) =>
        Returns tt
          (set_is_paused true (set_accum_time (_accum_time s + e) s1), n1)
    | Raises e w => Raises e w
    end /\
  (_is_paused s = true ->
   exists s2,
     pause perf (s, n) = Returns tt (s2, n) /\
     _is_paused s2 = true /\
     _accum_time s2 == 2 * _accum_time s /\
     _interval s2 = _interval s /\ _t0 s2 = _t0 s /\
     _t_last s2 = _t_last s /\ _t_last_tick s2 = _t_last_tick s /\
     _has_ticked s2 = _has_ticked s).
Proof.
  pose proof (pause_banks_elapsed_eq s n) as Hd.
  split; [exact Hd|].
  intros Hp. rewrite Hd, (elapsed_paused_run _ _ Hp).
  eexists. split; [reflexivity|]. cbn.
  repeat split; try reflexivity. ring.
Qed.

(** C6. [resume] clears [_is_paused] and sets [_t0] to a clock reading
    (the second of its two reads, the one [reset] takes), leaving
    [_accum_time] and the other attributes alone; so on a timer with banked
    value [a], an [elapsed] read made later, [t] seconds of clock after that
    rebasing, returns [a + t]. *)
Theorem resume_rebases_and_keeps_bank (s : t) (n : nat) :
  exists s1,
    resume perf (s, n) = Returns tt (s1, S (S n)) /\
    _is_paused s1 = false /\
    _t0 s1 = perf (S n) /\
    _accum_time s1 = _accum_time s /\
    _interval s1 = _interval s /\ _t_last s1 = _t_last s /\
    _t_last_tick s1 = _t_last_tick s /\ _has_ticked s1 = _has_ticked s /\
    (~ _interval s == 0 ->
     forall m, exists e s2,
       elapsed perf (s1, m) = Returns e (s2, S (S (S m))) /\
       e == _accum_time s + (perf (S (S m)) - perf (S n))).
Proof.
  exists (set_t0 (perf (S n)) (set_t0 (perf n) (set_is_paused false s))).
  split; [reflexivity|].
  repeat (split; [reflexivity|]).
  intros Hi m. eexists. eexists. split.
  - apply elapsed_running_run; [reflexivity | exact Hi].
  - cbn. ring.
Qed.

(** C7. [reset] sets [_t0] to the clock reading it takes and changes no
    other attribute.  On a running timer an [elapsed] read that follows
    returns the clock advance since the reset plus [_accum_time]: exactly
    [_accum_time] if the clock has not moved, and [0] if moreover nothing is
    banked.  On a paused timer [elapsed] returns the same value after the
    reset as before it. *)
Theorem reset_only_rebases (s : t) (n : nat) :
  exists s1,
    reset perf (s, n) = Returns tt (s1, S n) /\
    _t0 s1 = perf n /\
    _accum_time s1 = _accum_time s /\ _is_paused s1 = _is_paused s /\
    _t_last s1 = _t_last s /\ _t_last_tick s1 = _t_last_tick s /\
    _has_ticked s1 = _has_ticked s /\ _interval s1 = _interval s /\
    (_is_paused s = false -> ~ _interval s == 0 ->
     exists e s2,
       elapsed perf (s1, S n) = Returns e (s2, S (S (S (S n)))) /\
       e == (perf (S (S (S n))) - perf n) + _accum_time s /\
       (perf (S (S (S n))) == perf n -> e == _accum_time s) /\
       (perf (S (S (S n))) == perf n -> _accum_time s == 0 -> e == 0)) /\
    (_is_paused s = true ->
     elapsed perf (s1, S n) = Returns (_accum_time s) (s1, S n) /\
     elapsed perf (s, n) = Returns (_accum_time s) (s, n)).
Proof.
  exists (set_t0 (perf n) s).
  split; [reflexivity|].
  repeat (split; [reflexivity|]).
  split.
  - intros Hp Hi. eexists. eexists. split.
    + apply elapsed_running_run; [exact Hp | exact Hi].
    + cbn. repeat split; intros; lra.
  - intros Hp. split.
    + exact (elapsed_paused_run (set_t0 (perf n) s) (S n) Hp).
    + exact (elapsed_paused_run s n Hp).
Qed.

Lemma float_overflow_above_one : 1 < float_overflow.
Proof. reflexivity. Qed.

Lemma overflows_false (x : Q) :
  0 <= x -> x < float_overflow -> overflows x = false.
Proof.
  intros H0 H1. unfold overflows.
  apply not_true_iff_false. rewrite Qle_bool_iff.
  rewrite Qabs_pos by assumption. now apply Qlt_not_le.
Qed.

Lemma overflows_true (x : Q) :
  0 <= x -> float_overflow <= x -> overflows x = true.
Proof.
  intros H0 H1. unfold overflows.
  rewrite Qle_bool_iff. now rewrite Qabs_pos by assumption.
Qed.

(** C8, as amended.  In every world reachable under a monotonic clock,
    [elapsed] returns a non-negative value [e]; on that same world (same
    clock readings) [elapsed_ticks] returns [e / _interval].  While [e] and
    that quotient are below the float range's end, [elapsed_ticks_int]
    returns the floor of the quotient, the truncation of [int(...)]
    agreeing with the floor on a non-negative number, and all three leave
    the same world behind.  When the quotient reaches the end of the float
    range (it stands for [inf]), [elapsed_ticks_int] raises
    [OverflowError]. *)
Theorem elapsed_ticks_identity (w : World) :
  monotonic perf -> reachable perf w ->
  exists e w',
    elapsed perf w = Returns e w' /\
    0 <= e /\
    elapsed_ticks perf w = Returns (e / _interval (fst w)) w' /\
    truncate (e / _interval (fst w)) = Qfloor (e / _interval (fst w)) /\
    (e < float_overflow -> e / _interval (fst w) < float_overflow ->
     elapsed_ticks_int perf w =
       Returns (Qfloor (e / _interval (fst w))) w') /\
    (float_overflow <= e / _interval (fst w) ->
     elapsed_ticks_int perf w = Raises OverflowError w').
Proof.
  intros Hm Hr. destruct (reachable_consistent w Hm Hr) as (Hpos & Hacc & Ht0).
  destruct w as [s n]. cbn [fst snd] in *.
  pose proof (positive_nonzero _ Hpos) as Hi.
  assert (Hex : exists e w', elapsed perf (s, n) = Returns e w' /\ 0 <= e).
  { destruct (_is_paused s) eqn:Hp.
    - eexists. eexists. split; [now apply elapsed_paused_run | assumption].
    - eexists. eexists. split; [now apply elapsed_running_run |].
      assert (perf n <= perf (S (S n))) by (apply monotonic_le; [assumption | lia]).
      lra. }
  destruct Hex as (e & w' & He & Hnn). exists e, w'.
  assert (Hq : 0 <= e / _interval s).
  { apply Qle_shift_div_l; [assumption | lra]. }
  assert (Ht : elapsed_ticks perf (s, n) = Returns (e / _interval s) w').
  { now rewrite (elapsed_ticks_run _ _ Hi), He. }
  split; [exact He|]. split; [exact Hnn|]. split; [exact Ht|].
  split; [now apply truncate_nonneg|]. split.
  - intros _ Hin. rewrite elapsed_ticks_int_run, Ht.
    rewrite (overflows_false _ Hq Hin).
    now rewrite (truncate_nonneg _ Hq).
  - intros Hout. rewrite elapsed_ticks_int_run, Ht.
    now rewrite (overflows_true _ Hq Hout).
Qed.

(** C9, as amended.  On an instance whose interval is positive, whatever
    the clock reads: every call other than [elapsed_ticks_int] returns and
    leaves the interval as it was; no call raises [ZeroDivisionError], the
    only exception a call can end in being the [OverflowError] of
    [elapsed_ticks_int]; and [elapsed_ticks_int] returns the truncation of
    [elapsed / _interval] while [elapsed] and that quotient are inside the
    float range, and raises [OverflowError] once the quotient has reached
    its end.  The constructor returns for every argument and stores the
    interval it is given without looking at it. *)
Theorem only_overflow_can_fail :
  (forall (c : call) (s : t) (n : nat),
     0 < _interval s ->
     (c <> GetElapsedTicksInt ->
      exists v s' n',
        invoke perf c (s, n) = Returns v (s', n') /\
        _interval s' = _interval s) /\
     (forall e w,
        invoke perf c (s, n) = Raises e w ->
        c = GetElapsedTicksInt /\ e = OverflowError /\
        _interval (fst w) = _interval s) /\
     (exists e s' n',
        elapsed perf (s, n) = Returns e (s', n') /\
        elapsed_ticks perf (s, n) = Returns (e / _interval s) (s', n') /\
        _interval s' = _interval s /\
        (overflows e = false -> overflows (e / _interval s) = false ->
         elapsed_ticks_int perf (s, n) =
           Returns (truncate (e / _interval s)) (s', n')) /\
        (overflows (e / _interval s) = true ->
         elapsed_ticks_int perf (s, n) = Raises OverflowError (s', n')))) /\
  (forall (interval : Q) (is_paused : bool) (reads : nat),
     _interval (fst (__init__ perf interval is_paused reads)) = interval).
Proof.
  split; [|reflexivity].
  intros c s n Hpos. pose proof (positive_nonzero _ Hpos) as Hi.
  assert (Hf : _interval (fst (call_world perf c (s, n))) = _interval s).
  { unfold call_world; cbn [fst snd].
    destruct c; destruct (_is_paused s);
      destruct (Qgtb (perf n - _t_last_tick s) (_interval s)); reflexivity. }
  split; [|split].
  - intros Hc.
    destruct (invoke_run c s n Hi) as [[v Hv] | [Hc' _]]; [|contradiction].
    destruct (call_world perf c (s, n)) as [s' n'].
    exists v, s', n'. split; [exact Hv | exact Hf].
  - intros e w Hr.
    destruct (invoke_run c s n Hi) as [[v Hv] | [Hc Hv]];
      rewrite Hv in Hr; [discriminate Hr|].
    injection Hr as He Hw. subst e w. now repeat split.
  - assert (Hex : exists e s' n',
              elapsed perf (s, n) = Returns e (s', n') /\
              _interval s' = _interval s).
    { destruct (_is_paused s) eqn:Hp.
      - exists (_accum_time s), s, n.
        split; [now apply elapsed_paused_run | reflexivity].
      - eexists. eexists. eexists.
        split; [now apply elapsed_running_run|].
        exact (proj1 (boundary_check_frame (perf n) s)). }
    destruct Hex as (e & s' & n' & He & Hk).
    assert (Ht : elapsed_ticks perf (s, n) =
                 Returns (e / _interval s) (s', n'))
      by now rewrite (elapsed_ticks_run _ _ Hi), He.
    exists e, s', n'.
    split; [exact He|]. split; [exact Ht|]. split; [exact Hk|]. split.
    + intros _ Hq. now rewrite elapsed_ticks_int_run, Ht, Hq.
    + intros Hq. now rewrite elapsed_ticks_int_run, Ht, Hq.
Qed.


End Properties.

(** ** The claims on concrete timers *)

Lemma tenths_monotonic : monotonic tenths.
Proof.
  intros n. unfold tenths. apply Qmult_le_compat_r.
  - rewrite <- Zle_Qle. lia.
  - discriminate.
Qed.

Lemma elapsed_paused_or_running_witness :
  (elapsed tenths (parked, 0%nat) = Returns (3#10) (parked, 0%nat) /\
   poll_elapsed tenths 3 (parked, 0%nat) =
     Returns [3#10; 3#10; 3#10] (parked, 0%nat)) /\
  exists s', elapsed tenths (fresh, 0%nat) =
             Returns ((tenths 2 - 0) + 0) (s', 3%nat).
Proof.
  destruct (elapsed_paused_or_running tenths parked 0) as [Hp _].
  destruct (elapsed_paused_or_running tenths fresh 0) as [_ Hr].
  split.
  - destruct (Hp eq_refl) as [H1 H2]. split; [exact H1 | exact (H2 3%nat)].
  - apply Hr; [reflexivity | vm_compute; discriminate].
Defined.

Lemma tick_delta_bulk_advance_witness :
  ~ _interval decisecond == 0 /\
  exists s',
    tick_delta (frozen (35#100)) (decisecond, 0%nat) =
      Returns ((35#100) - _t_last_tick s') (s', 2%nat) /\
    _has_ticked s' = true /\
    _t_last_tick s' == 3#10.
Proof.
  assert (Hi : ~ _interval decisecond == 0) by (vm_compute; discriminate).
  split; [exact Hi|].
  destruct (tick_delta_bulk_advance (frozen (35#100)) decisecond 0 Hi)
    as (s' & Hrun & Hcross & _).
  exists s'. split; [exact Hrun|].
  destruct Hcross as [Hf Hl]; [reflexivity|].
  split; [exact Hf|]. rewrite Hl. reflexivity.
Defined.

(** C4, as the specification words it, fails.  With interval [1], the
    tick anchor at [0] and the clock at [5/2], two boundaries have been
    crossed: [tick_delta] leaves [_has_ticked] set, [elapsed] on the same
    running timer leaves it cleared; on the same timer paused, [elapsed]
    leaves flag and anchor as they were while [tick_delta] sets the flag and
    moves the anchor to [2]. *)
Lemma elapsed_bookkeeping_differs :
  (_has_ticked (fst (world_of (tick_delta (frozen (5#2)) (fresh, 0%nat))))
     = true /\
   _has_ticked (fst (world_of (elapsed (frozen (5#2)) (fresh, 0%nat))))
     = false /\
   _has_ticked (fst (world_of (elapsed (frozen (5#2)) (fresh, 0%nat))))
     <> _has_ticked
          (fst (world_of (tick_delta (frozen (5#2)) (fresh, 0%nat))))) /\
  (_has_ticked
     (fst (world_of
        (tick_delta (frozen (5#2)) (set_is_paused true fresh, 0%nat))))
     = true /\
   _t_last_tick
     (fst (world_of
        (tick_delta (frozen (5#2)) (set_is_paused true fresh, 0%nat))))
     == 2 /\
   world_of (elapsed (frozen (5#2)) (set_is_paused true fresh, 0%nat))
     = (set_is_paused true fresh, 0%nat) /\
   ~ _t_last_tick
       (fst (world_of
          (elapsed (frozen (5#2)) (set_is_paused true fresh, 0%nat))))
     == _t_last_tick
          (fst (world_of
             (tick_delta (frozen (5#2)) (set_is_paused true fresh, 0%nat))))).
Proof.
  split; [split; [reflexivity | split; [reflexivity | discriminate]]|].
  split; [reflexivity|]. split; [reflexivity|]. split; [reflexivity|].
  vm_compute. discriminate.
Qed.

Lemma elapsed_tick_bookkeeping_witness :
  (exists e s1 x s2,
     elapsed (frozen (5#2)) (fresh, 0%nat) = Returns e (s1, 3%nat) /\
     tick_delta (frozen (5#2)) (fresh, 0%nat) = Returns x (s2, 2%nat) /\
     _t_last_tick s1 = _t_last_tick s2 /\
     _has_ticked s1 = false /\
     _has_ticked s2 = true /\
     e == 5#2) /\
  elapsed (frozen (5#2)) (parked, 0%nat) = Returns (3#10) (parked, 0%nat).
Proof.
  destruct (elapsed_tick_bookkeeping (frozen (5#2)) fresh 0) as [Hr _].
  destruct (elapsed_tick_bookkeeping (frozen (5#2)) parked 0) as [_ Hp].
  split; [|exact (Hp eq_refl)].
  assert (Hi : ~ _interval fresh == 0) by (vm_compute; discriminate).
  destruct (Hr eq_refl Hi) as (e & s1 & x & s2 & He & Hx & Hl & Hf & Hs & Hv & _).
  exists e, s1, x, s2.
  repeat (split; [assumption|]).
  split.
  - assert (Hs2 : s2 = fst (world_of (tick_delta (frozen (5#2)) (fresh, 0%nat))))
      by now rewrite Hx.
    rewrite Hs2. reflexivity.
  - rewrite Hv. reflexivity.
Defined.

Lemma pause_banks_elapsed_witness :
  _is_paused parked = true /\
  exists s2,
    pause tenths (parked, 0%nat) = Returns tt (s2, 0%nat) /\
    _is_paused s2 = true /\
    _accum_time s2 == 6#10.
Proof.
  split; [reflexivity|].
  destruct (pause_banks_elapsed tenths parked 0) as [_ H].
  destruct (H eq_refl) as (s2 & Hrun & Hp & Ha & _).
  exists s2. repeat (split; [assumption|]).
  rewrite Ha. reflexivity.
Defined.

Lemma resume_rebases_and_keeps_bank_witness :
  ~ _interval parked == 0 /\
  exists s1,
    resume tenths (parked, 0%nat) = Returns tt (s1, 2%nat) /\
    _is_paused s1 = false /\
    _accum_time s1 = 3#10 /\
    exists e s2,
      elapsed tenths (s1, 2%nat) = Returns e (s2, 5%nat) /\
      e == (3#10) + (3#10).
Proof.
  assert (Hi : ~ _interval parked == 0) by (vm_compute; discriminate).
  split; [exact Hi|].
  destruct (resume_rebases_and_keeps_bank tenths parked 0)
    as (s1 & Hrun & Hp & _ & Ha & _ & _ & _ & _ & He).
  exists s1. repeat (split; [assumption|]).
  destruct (He Hi 2%nat) as (e & s2 & He1 & He2).
  exists e, s2. split; [exact He1|]. rewrite He2. reflexivity.
Defined.

Lemma reset_only_rebases_witness :
  (exists s1 e s2,
     reset (frozen (5#2)) (fresh, 0%nat) = Returns tt (s1, 1%nat) /\
     _t0 s1 = 5#2 /\
     elapsed (frozen (5#2)) (s1, 1%nat) = Returns e (s2, 4%nat) /\
     e == 0) /\
  (exists s1,
     reset tenths (parked, 0%nat) = Returns tt (s1, 1%nat) /\
     elapsed tenths (s1, 1%nat) = Returns (3#10) (s1, 1%nat)).
Proof.
  split.
  - destruct (reset_only_rebases (frozen (5#2)) fresh 0)
      as (s1 & Hrun & Ht0 & _ & _ & _ & _ & _ & _ & Hr & _).
    assert (Hi : ~ _interval fresh == 0) by (vm_compute; discriminate).
    destruct (Hr eq_refl Hi) as (e & s2 & He & _ & _ & Hz).
    exists s1, e, s2. repeat (split; [assumption|]).
    apply Hz; reflexivity.
  - destruct (reset_only_rebases tenths parked 0)
      as (s1 & Hrun & _ & _ & _ & _ & _ & _ & _ & _ & Hp).
    exists s1. split; [exact Hrun|]. exact (proj1 (Hp eq_refl)).
Defined.

Lemma seconds_monotonic : monotonic seconds.
Proof.
  intros n. unfold seconds. rewrite <- Zle_Qle. lia.
Qed.

(** C8, as the specification words it, fails.  A timer constructed with
    the least positive float as interval is reachable; five seconds of
    clock later [elapsed] returns [5] and [elapsed_ticks] returns
    [5 * 2^1074], beyond the float range, so [elapsed_ticks_int] raises
    [OverflowError] and has no floor to return. *)
Lemma elapsed_ticks_int_overflows :
  monotonic seconds /\
  reachable seconds (__init__ seconds least_positive false 0) /\
  (exists w,
     elapsed seconds (__init__ seconds least_positive false 0) =
       Returns (5 - 0 + 0) w /\
     elapsed_ticks_int seconds (__init__ seconds least_positive false 0) =
       Raises OverflowError w) /\
  forall z w,
    elapsed_ticks_int seconds (__init__ seconds least_positive false 0)
    <> Returns z w.
Proof.
  split; [exact seconds_monotonic|].
  split; [apply reach_new; reflexivity|].
  assert (H : exists w,
     elapsed seconds (__init__ seconds least_positive false 0) =
       Returns (5 - 0 + 0) w /\
     elapsed_ticks_int seconds (__init__ seconds least_positive false 0) =
       Raises OverflowError w).
  { eexists. split; [vm_compute; reflexivity | vm_compute; reflexivity]. }
  split; [exact H|].
  destruct H as (w0 & _ & Hr). intros z w Hz. rewrite Hr in Hz. discriminate Hz.
Qed.

Lemma elapsed_ticks_identity_witness :
  monotonic tenths /\
  reachable tenths (__init__ tenths (1#10) false 0) /\
  exists e w',
    elapsed tenths (__init__ tenths (1#10) false 0) = Returns e w' /\
    e < float_overflow /\ e / (1#10) < float_overflow /\
    elapsed_ticks tenths (__init__ tenths (1#10) false 0) =
      Returns (e / (1#10)) w' /\
    elapsed_ticks_int tenths (__init__ tenths (1#10) false 0) =
      Returns (Qfloor (e / (1#10))) w'.
Proof.
  assert (Hr : reachable tenths (__init__ tenths (1#10) false 0))
    by (apply reach_new; reflexivity).
  split; [exact tenths_monotonic|]. split; [exact Hr|].
  destruct (elapsed_ticks_identity tenths _ tenths_monotonic Hr)
    as (e & w' & He & _ & Ht & _ & Hn & _).
  assert (Hv : e = (tenths 5 - tenths 0) + 0).
  { assert (Hc : elapsed tenths (__init__ tenths (1#10) false 0) =
                 Returns ((tenths 5 - tenths 0) + 0)
                   (world_of (elapsed tenths (__init__ tenths (1#10) false 0))))
      by reflexivity.
    rewrite Hc in He. now injection He as He _. }
  assert (H1 : e < float_overflow) by (rewrite Hv; reflexivity).
  assert (H2 : e / (1#10) < float_overflow) by (rewrite Hv; reflexivity).
  exists e, w'. split; [exact He|]. split; [exact H1|]. split; [exact H2|].
  split; [exact Ht|]. exact (Hn H1 H2).
Defined.

(** C9, as the specification words it, fails.  With the least positive
    float as interval, a positive one, and the clock at whole seconds, the
    call of [elapsed_ticks_int] ends in [OverflowError]. *)
Lemma elapsed_ticks_int_can_fail :
  monotonic seconds /\
  0 < _interval (mk least_positive 0 0 0 false false 0) /\
  exists w,
    invoke seconds GetElapsedTicksInt
      (mk least_positive 0 0 0 false false 0, 1%nat) =
    Raises OverflowError w.
Proof.
  split; [exact seconds_monotonic|]. split; [reflexivity|].
  eexists. vm_compute. reflexivity.
Qed.

Lemma only_overflow_can_fail_witness :
  0 < _interval decisecond /\
  (exists v s' n',
     invoke tenths GetTick (decisecond, 0%nat) = Returns v (s', n')) /\
  (exists e s' n',
     elapsed tenths (decisecond, 0%nat) = Returns e (s', n') /\
     overflows e = false /\ overflows (e / (1#10)) = false /\
     elapsed_ticks_int tenths (decisecond, 0%nat) =
       Returns (truncate (e / (1#10))) (s', n')) /\
  _interval (fst (__init__ tenths 0 false 0)) = 0.
Proof.
  assert (Hpos : 0 < _interval decisecond) by reflexivity.
  split; [exact Hpos|].
  destruct (only_overflow_can_fail tenths) as [Hcall Hnew].
  split; [|split; [|exact (Hnew 0 false 0%nat)]].
  - destruct (Hcall GetTick decisecond 0%nat Hpos) as (Hret & _ & _).
    destruct Hret as (v & s' & n' & Hrun & _); [discriminate|].
    exists v, s', n'. exact Hrun.
  - destruct (Hcall GetElapsedTicksInt decisecond 0%nat Hpos)
      as (_ & _ & e & s' & n' & He & _ & _ & Hint & _).
    exists e, s', n'. split; [exact He|].
    assert (Hv : e = (tenths 2 - 0) + 0).
    { assert (Hc : elapsed tenths (decisecond, 0%nat) =
                   Returns ((tenths 2 - 0) + 0)
                     (world_of (elapsed tenths (decisecond, 0%nat))))
        by reflexivity.
      rewrite Hc in He. now injection He as He _. }
    assert (H1 : overflows e = false) by (rewrite Hv; reflexivity).
    assert (H2 : overflows (e / (1#10)) = false) by (rewrite Hv; reflexivity).
    split; [exact H1|]. split; [exact H2|]. exact (Hint H1 H2).
Defined.


(** A [reset] made while paused is overwritten by the next [resume], whose
    own two clock reads both land in [_t0]. *)
Remark paused_reset_then_resume (perf : nat -> Q) (s : t) (n : nat) :
  exists s1 s2,
    reset perf (s, n) = Returns tt (s1, S n) /\
    resume perf (s1, S n) = Returns tt (s2, S (S (S n))) /\
    _t0 s2 = perf (S (S n)) /\
    s2 = set_t0 (perf (S (S n))) (set_is_paused false s).
Proof.
  eexists. eexists. split; [reflexivity|]. split; [reflexivity|].
  split; reflexivity.
Qed.

(** The precondition of C9 is what keeps the error branch away: with a
    zero interval the division in [elapsed_ticks] raises. *)
Example elapsed_ticks_zero_interval :
  exists w, elapsed_ticks tenths (mk 0 0 0 0 false false 0, 0%nat) =
            Raises ZeroDivisionError w.
Proof. eexists. vm_compute. reflexivity. Qed.

(** Truncation and floor differ below zero, so C8 does need the
    non-negativity of [elapsed]. *)
Example truncate_negative :
  truncate (-1#2) = 0%Z /\ Qfloor (-1#2) = (-1)%Z.
Proof. split; reflexivity. Qed.

(** ** Further properties of the methods and of their composition *)

Section Composition.

Variable perf : nat -> Q.

(** X1. [k + 1] consecutive reads of [delta] return laps whose sum is the
    last clock reading minus the [_t_last] the first read found; only
    [_t_last] changes, whatever the pause and tick attributes are. *)
Theorem delta_laps_telescope (k : nat) (s : t) (n : nat) :
  exists xs,
    poll_delta perf (S k) (s, n) =
      Returns xs (set_t_last (perf (n + k)%nat) s, S (n + k)) /\
    length xs = S k /\
    Qsum xs == perf (n + k)%nat - _t_last s.
Proof.
  revert s n. induction k as [|k IH]; intros s n.
  - exists [perf n - _t_last s]. rewrite Nat.add_0_r.
    split; [reflexivity|]. split; [reflexivity|]. cbn. ring.
  - destruct (IH (set_t_last (perf n) s) (S n)) as (xs & Hrun & Hlen & Hsum).
    exists ((perf n - _t_last s) :: xs).
    rewrite Nat.add_succ_r.
    split; [|split].
    + change (poll_delta perf (S (S k)) (s, n))
        with (match poll_delta perf (S k) (set_t_last (perf n) s, S n) with
              | Returns ys w' => Returns ((perf n - _t_last s) :: ys) w'
              | Raises e w' => Raises e w'
              end).
      rewrite Hrun. reflexivity.
    + cbn [length]. now rewrite Hlen.
    + change (Qsum ((perf n - _t_last s) :: xs))
        with ((perf n - _t_last s) + Qsum xs).
      rewrite Hsum. cbn [_t_last set_t_last Nat.add]. ring.
Qed.

Lemma call_world_frame (c : call) (s : t) (n : nat) :
  _interval (fst (call_world perf c (s, n))) = _interval s /\
  _is_paused (fst (call_world perf c (s, n))) =
    match c with
    | DoPause => true
    | DoResume => false
    | _ => _is_paused s
    end /\
  (c <> DoReset -> c <> DoResume ->
   _t0 (fst (call_world perf c (s, n))) = _t0 s) /\
  (c <> DoPause ->
   _accum_time (fst (call_world perf c (s, n))) = _accum_time s) /\
  (c <> GetDelta -> _t_last (fst (call_world perf c (s, n))) = _t_last s) /\
  (c = GetDelta \/ c = DoReset \/ c = DoResume ->
   _t_last_tick (fst (call_world perf c (s, n))) = _t_last_tick s /\
   _has_ticked (fst (call_world perf c (s, n))) = _has_ticked s) /\
  (n <= snd (call_world perf c (s, n)))%nat.
Proof.
  unfold call_world; cbn [fst snd].
  destruct c; destruct (_is_paused s) eqn:Hp;
    destruct (Qgtb (perf n - _t_last_tick s) (_interval s)); cbn;
    repeat split; try reflexivity; try lia; try congruence;
    try (intros [H|[H|H]]; discriminate H);
    match goal with
    | H : _ \/ _ |- _ => destruct H as [H|[H|H]]; discriminate H
    end.
Qed.

(** X2. Which call writes which attribute, for a call that returns on a
    timer with a non-zero interval: nothing writes [_interval];
    [_is_paused] is written by [pause] and [resume] only; [_t0] by [reset]
    and [resume] only; [_accum_time] by [pause] only; [_t_last] by [delta]
    only; and [delta], [reset] and [resume] leave the tick attributes
    alone.  The clock-read counter never decreases. *)
Theorem attribute_writers (c : call) (s s' : t) (n n' : nat) (v : value) :
  ~ _interval s == 0 ->
  invoke perf c (s, n) = Returns v (s', n') ->
  _interval s' = _interval s /\
  _is_paused s' =
    match c with
    | DoPause => true
    | DoResume => false
    | _ => _is_paused s
    end /\
  (c <> DoReset -> c <> DoResume -> _t0 s' = _t0 s) /\
  (c <> DoPause -> _accum_time s' = _accum_time s) /\
  (c <> GetDelta -> _t_last s' = _t_last s) /\
  (c = GetDelta \/ c = DoReset \/ c = DoResume ->
   _t_last_tick s' = _t_last_tick s /\ _has_ticked s' = _has_ticked s) /\
  (n <= n')%nat.
Proof.
  intros Hi Hrun.
  destruct (invoke_run perf c s n Hi) as [[v' Hv] | [_ Hv]];
    rewrite Hv in Hrun; [|discriminate Hrun].
  injection Hrun as _ Hw. clear Hv.
  pose proof (call_world_frame c s n) as F.
  rewrite Hw in F. exact F.
Qed.

Lemma is_read_not_method (c : call) :
  is_read c = true -> c <> DoReset /\ c <> DoPause /\ c <> DoResume.
Proof. destruct c; intros H; try discriminate H; repeat split; discriminate. Qed.

(** Property reads leave the basis of [elapsed] alone. *)
Lemma reads_keep_basis (cs : list call) (s s' : t) (n n' : nat)
      (vs : list value) :
  ~ _interval s == 0 -> forallb is_read cs = true ->
  run_calls perf cs (s, n) = Returns vs (s', n') ->
  _interval s' = _interval s /\ _is_paused s' = _is_paused s /\
  _t0 s' = _t0 s /\ _accum_time s' = _accum_time s /\ (n <= n')%nat.
Proof.
  revert s n vs. induction cs as [|c cs IH]; intros s n vs Hi Hall Hrun.
  - injection Hrun as _ Hs Hn. subst. repeat split. lia.
  - cbn [forallb] in Hall. apply andb_true_iff in Hall as [Hc Hall].
    destruct (is_read_not_method c Hc) as (N1 & N2 & N3).
    cbn [run_calls] in Hrun. unfold bind at 1 in Hrun.
    destruct (invoke_run perf c s n Hi) as [[v Hv] | [_ Hv]];
      rewrite Hv in Hrun; [|discriminate Hrun].
    destruct (call_world perf c (s, n)) as [s1 n1] eqn:Hw.
    pose proof (call_world_frame c s n) as F. rewrite Hw in F.
    cbn [fst snd] in F. destruct F as (I1 & P1 & T1 & A1 & _ & _ & L1).
    unfold bind at 1 in Hrun.
    destruct (run_calls perf cs (s1, n1)) as [vs' [s2 n2]|e w] eqn:Hrest;
      [|discriminate Hrun].
    injection Hrun as _ Hs Hn. subst s2 n2.
    assert (Hi1 : ~ _interval s1 == 0) by now rewrite I1.
    destruct (IH s1 n1 vs' Hi1 Hall Hrest) as (I2 & P2 & T2 & A2 & L2).
    rewrite I2, P2, T2, A2, I1, (T1 N1 N3), (A1 N2).
    repeat split; try lia.
    rewrite P1. now destruct c.
Qed.

(** X4. Under a monotonic clock and with a positive interval, two reads of
    [elapsed] separated by any number of property reads (no [reset],
    [pause] or [resume] in between) are in order: the later one is not
    smaller; on a paused timer the two are equal. *)
Theorem elapsed_nondecreasing_across_reads
        (cs : list call) (s : t) (n : nat) (e1 e2 : Q) (w1 w2 w3 : World)
        (vs : list value) :
  monotonic perf -> 0 < _interval s -> forallb is_read cs = true ->
  elapsed perf (s, n) = Returns e1 w1 ->
  run_calls perf cs w1 = Returns vs w2 ->
  elapsed perf w2 = Returns e2 w3 ->
  e1 <= e2 /\ (_is_paused s = true -> e2 = e1).
Proof.
  intros Hm Hpos Hall H1 Hcs H2.
  pose proof (positive_nonzero _ Hpos) as Hi.
  destruct w1 as [s1 n1]. destruct w2 as [s2 n2].
  destruct (_is_paused s) eqn:Hp.
  - rewrite (elapsed_paused_run _ _ _ Hp) in H1.
    injection H1 as He Hs Hn. subst e1 s1 n1.
    destruct (reads_keep_basis cs s s2 n n2 vs Hi Hall Hcs)
      as (_ & P & _ & A & _).
    rewrite (elapsed_paused_run perf s2 n2) in H2 by now rewrite P.
    injection H2 as He _. subst e2. rewrite A.
    split; [apply Qle_refl | reflexivity].
  - rewrite (elapsed_running_run _ _ _ Hp Hi) in H1.
    injection H1 as He Hs Hn. subst e1 n1.
    destruct (boundary_check_frame (perf n) s) as (B1 & B2 & _ & B4 & B5).
    assert (Hi1 : ~ _interval s1 == 0) by (subst s1; exact (eq_ind_r (fun x => ~ x == 0) Hi B1)).
    destruct (reads_keep_basis cs s1 s2 (S (S (S n))) n2 vs Hi1 Hall Hcs)
      as (I & P & T & A & L).
    assert (P2 : _is_paused s2 = false) by (rewrite P; subst s1; exact (eq_trans B4 Hp)).
    assert (Hi2 : ~ _interval s2 == 0) by now rewrite I.
    rewrite (elapsed_running_run _ _ _ P2 Hi2) in H2.
    injection H2 as He _. subst e2.
    assert (T2 : _t0 s2 = _t0 s) by (rewrite T; subst s1; exact B2).
    assert (A2 : _accum_time s2 = _accum_time s) by (rewrite A; subst s1; exact B5).
    rewrite T2, A2.
    assert (perf (S (S n)) <= perf (S (S n2)))
      by (apply monotonic_le; [assumption | lia]).
    split; [lra | discriminate].
Qed.

Lemma invoke_lap_behind (c : call) (s : t) (n : nat) (v : value)
      (w' : World) :
  monotonic perf -> ~ _interval s == 0 -> _t_last s <= perf n ->
  invoke perf c (s, n) = Returns v w' -> _t_last (fst w') <= perf (snd w').
Proof.
  intros Hm Hi Hl Hrun.
  destruct (invoke_run perf c s n Hi) as [[v' Hv] | [_ Hv]];
    rewrite Hv in Hrun; [|discriminate Hrun].
  injection Hrun as _ Hw. subst w'.
  pose proof (Hm n) as M0. pose proof (Hm (S n)) as M1.
  pose proof (Hm (S (S n))) as M2.
  unfold call_world; cbn [fst snd].
  destruct c; destruct (_is_paused s);
    destruct (Qgtb (perf n - _t_last_tick s) (_interval s));
    cbn; lra.
Qed.

(** X5. In every world reachable under a monotonic clock, [_t_last] is
    not ahead of the clock, so [delta] returns a non-negative lap. *)
Theorem delta_nonnegative (w : World) :
  monotonic perf -> reachable perf w ->
  _t_last (fst w) <= perf (snd w) /\
  exists d w1, delta perf w = Returns d w1 /\ 0 <= d.
Proof.
  intros Hm Hr.
  assert (Hl : _t_last (fst w) <= perf (snd w)).
  { induction Hr as [i p r Hpos | c w v w' Hr IH Hrun].
    - unfold __init__; cbn. apply monotonic_le; [assumption | lia].
    - destruct w as [s n].
      destruct (reachable_consistent perf _ Hm Hr) as (Hpos & _).
      eapply invoke_lap_behind; try eassumption.
      now apply positive_nonzero. }
  split; [exact Hl|].
  destruct w as [s n]. cbn [fst snd] in Hl.
  exists (perf n - _t_last s), (set_t_last (perf n) s, S n).
  split; [reflexivity | lra].
Qed.

(** X8. [tick_delta] never clears the flag: when the flag was set before
    the call, or the call crosses a boundary, the flag is set afterwards
    and stays so until [tick] is read, which then returns [True] whatever
    its own clock reading and clears the flag. *)
Theorem tick_delta_flag_survives_until_tick (s : t) (n : nat) :
  ~ _interval s == 0 ->
  _has_ticked s = true \/ _interval s < perf n - _t_last_tick s ->
  exists x s1,
    tick_delta perf (s, n) = Returns x (s1, S (S n)) /\
    _has_ticked s1 = true /\
    forall m, exists s2,
      tick perf (s1, m) = Returns true (s2, S (S m)) /\
      _has_ticked s2 = false.
Proof.
  intros Hi Hset.
  destruct (boundary_check_frame (perf n) s) as (B1 & _).
  exists (perf (S n) - _t_last_tick (boundary_check (perf n) s)),
         (boundary_check (perf n) s).
  assert (Hf : forall now u, _has_ticked u = true ->
                 _has_ticked (boundary_check now u) = true).
  { intros now u Hu. unfold boundary_check.
    now destruct (Qgtb (now - _t_last_tick u) (_interval u)). }
  assert (H1 : _has_ticked (boundary_check (perf n) s) = true).
  { destruct Hset as [Hs | Hc]; [now apply Hf|].
    now rewrite (boundary_check_crossed _ _ Hc). }
  split; [now apply tick_delta_run|]. split; [exact H1|].
  intros m. eexists. split.
  - rewrite tick_run by now rewrite B1. now rewrite (Hf _ _ H1).
  - reflexivity.
Qed.

(** X9. [pause] on a running timer (non-zero interval) with bank [a]
    leaves the bank at [a] plus the value [e] that [elapsed] returns on the
    same world, that is [2 * a] plus the running span; every later read of
    [elapsed] while paused returns that bank. *)
Theorem pause_while_running_adds_bank_twice (s : t) (n : nat) :
  _is_paused s = false -> ~ _interval s == 0 ->
  exists e s1 s2,
    elapsed perf (s, n) = Returns e (s1, S (S (S n))) /\
    pause perf (s, n) = Returns tt (s2, S (S (S n))) /\
    _accum_time s2 = _accum_time s + e /\
    _accum_time s2 == 2 * _accum_time s + (perf (S (S n)) - _t0 s) /\
    forall m, elapsed perf (s2, m) = Returns (_accum_time s + e) (s2, m).
Proof.
  intros Hp Hi.
  pose proof (elapsed_running_run perf s n Hp Hi) as He.
  eexists. eexists. eexists. split; [exact He|].
  split; [now rewrite pause_banks_elapsed_eq, He|].
  split; [reflexivity|]. split; [cbn; ring|].
  intros m. now apply elapsed_paused_run.
Qed.

Lemma tick_delta_raises (s : t) (n : nat) (e : exn) (w : World) :
  tick_delta perf (s, n) = Raises e w ->
  e = ZeroDivisionError /\ w = (set_has_ticked true s, S n) /\
  _interval s == 0 /\ _interval s < perf n - _t_last_tick s.
Proof.
  unfold tick_delta, floordiv_checked, perf_counter, assign, attr, bind,
    ret, raise; cbn [fst snd].
  destruct (Qgtb (perf n - _t_last_tick s) (_interval s)) eqn:E; cbn;
    [|discriminate].
  destruct (Qeq_bool (_interval s) 0) eqn:Z; cbn; [|discriminate].
  intros H. injection H as He Hw. subst e w.
  apply Qgtb_true in E. apply Qeq_bool_iff in Z. now repeat split.
Qed.

(** X10. With a zero interval, [tick_delta] raises [ZeroDivisionError]
    exactly when its first reading is past the anchor, and by then it has
    already set [_has_ticked]; otherwise it returns as usual.  On a paused
    timer [elapsed_ticks] and [elapsed_ticks_int] raise and leave the
    world untouched. *)
Theorem zero_interval_raises (s : t) (n : nat) :
  _interval s == 0 ->
  (_t_last_tick s < perf n ->
   tick_delta perf (s, n) =
     Raises ZeroDivisionError (set_has_ticked true s, S n)) /\
  (perf n <= _t_last_tick s ->
   tick_delta perf (s, n) =
     Returns (perf (S n) - _t_last_tick s) (s, S (S n))) /\
  (_is_paused s = true ->
   elapsed_ticks perf (s, n) = Raises ZeroDivisionError (s, n) /\
   elapsed_ticks_int perf (s, n) = Raises ZeroDivisionError (s, n)).
Proof.
  intros Hz. pose proof (Qeq_eq_bool _ _ Hz) as Zb.
  split; [|split].
  - intros Hlt.
    assert (E : Qgtb (perf n - _t_last_tick s) (_interval s) = true)
      by (apply Qgtb_true; lra).
    unfold tick_delta, floordiv_checked, perf_counter, assign, attr, bind,
      ret, raise; cbn [fst snd].
    rewrite E; cbn. now rewrite Zb.
  - intros Hle.
    assert (E : Qgtb (perf n - _t_last_tick s) (_interval s) = false)
      by (apply Qgtb_false; lra).
    unfold tick_delta, floordiv_checked, perf_counter, assign, attr, bind,
      ret, raise; cbn [fst snd].
    now rewrite E.
  - intros Hp.
    assert (Ht : elapsed_ticks perf (s, n) = Raises ZeroDivisionError (s, n)).
    { unfold elapsed_ticks, bind at 1.
      rewrite (elapsed_paused_run _ _ _ Hp).
      unfold bind, attr, truediv, raise; cbn [fst snd]. now rewrite Zb. }
    split; [exact Ht|].
    unfold elapsed_ticks_int, bind. now rewrite Ht.
Qed.

(** X11. When [tick_delta] raises, [tick] raises the same way, and so do
    [elapsed], [elapsed_ticks], [elapsed_ticks_int] and [pause] on a running
    timer; the timer is then still running with its bank and origin as they
    were, only [_has_ticked] having been set. *)
Theorem tick_delta_error_propagates (s : t) (n : nat) (e : exn) (w : World) :
  tick_delta perf (s, n) = Raises e w ->
  tick perf (s, n) = Raises e w /\
  w = (set_has_ticked true s, S n) /\
  (_is_paused s = false ->
   elapsed perf (s, n) = Raises e w /\
   elapsed_ticks perf (s, n) = Raises e w /\
   elapsed_ticks_int perf (s, n) = Raises e w /\
   pause perf (s, n) = Raises e w).
Proof.
  intros Hr. destruct (tick_delta_raises s n e w Hr) as (_ & Hw & _).
  assert (Ht : tick perf (s, n) = Raises e w)
    by (unfold tick, bind; now rewrite Hr).
  split; [exact Ht|]. split; [exact Hw|].
  intros Hp.
  assert (He : elapsed perf (s, n) = Raises e w).
  { unfold elapsed, bind at 1, attr at 1; cbn [fst snd]. rewrite Hp.
    unfold bind at 1. now rewrite Ht. }
  assert (Hk : elapsed_ticks perf (s, n) = Raises e w)
    by (unfold elapsed_ticks, bind at 1; now rewrite He).
  split; [exact He|]. split; [exact Hk|]. split.
  - unfold elapsed_ticks_int, bind. now rewrite Hk.
  - now rewrite pause_banks_elapsed_eq, He.
Qed.

Lemma Qfloor_unit (x : Q) : 0 <= x -> x < 1 -> Qfloor x = 0%Z.
Proof.
  intros H0 H1.
  pose proof (Qfloor_le x) as Hlo. pose proof (Qlt_floor x) as Hhi.
  assert (A : inject_Z (Qfloor x) < inject_Z 1)
    by (change (inject_Z 1) with 1; lra).
  assert (B : inject_Z (-1) < inject_Z (Qfloor x)).
  { rewrite inject_Z_plus in Hhi. change (inject_Z 1) with 1 in Hhi.
    change (inject_Z (-1)) with (-1 # 1). lra. }
  rewrite <- Zlt_Qlt in A, B. lia.
Qed.

(** X12. A timer constructed running with a positive interval under a
    monotonic clock: its first [elapsed] is the advance of the clock since
    the constructor's first read, hence non-negative; while that advance is
    below one interval [elapsed_ticks_int] is [0]; and its first [tick] is
    [False] if the clock has advanced by at most one interval since the
    constructor's last read.  Constructed paused, [elapsed] is [0]. *)
Theorem new_timer_reads (interval : Q) (reads : nat) :
  monotonic perf -> 0 < interval ->
  (exists e w1,
     elapsed perf (__init__ perf interval false reads) = Returns e w1 /\
     e == perf (5 + reads)%nat - perf reads /\ 0 <= e /\
     (perf (5 + reads)%nat - perf reads < interval ->
      elapsed_ticks_int perf (__init__ perf interval false reads) =
      Returns 0%Z w1)) /\
  (perf (3 + reads)%nat - perf (2 + reads)%nat <= interval ->
   exists w1,
     tick perf (__init__ perf interval false reads) = Returns false w1) /\
  elapsed perf (__init__ perf interval true reads) =
    Returns 0 (__init__ perf interval true reads).
Proof.
  intros Hm Hpos. pose proof (positive_nonzero _ Hpos) as Hi.
  split; [|split].
  - assert (He : elapsed perf (__init__ perf interval false reads) =
                 Returns ((perf (5 + reads)%nat - perf reads) + 0)
                   (world_of
                      (elapsed perf (__init__ perf interval false reads)))).
    { unfold __init__.
      rewrite elapsed_running_run by (cbn; auto). reflexivity. }
    assert (Hnn : 0 <= perf (5 + reads)%nat - perf reads + 0).
    { assert (perf reads <= perf (5 + reads)%nat)
        by (apply monotonic_le; [assumption | lia]).
      lra. }
    eexists. eexists. split; [exact He|].
    split; [ring|]. split; [exact Hnn|].
    intros Hlt. unfold __init__ in He |- *.
    rewrite elapsed_ticks_int_run.
    rewrite elapsed_ticks_run by (cbn; auto). rewrite He.
    cbn [_interval].
    assert (Q0 : 0 <= (perf (5 + reads)%nat - perf reads + 0) / interval)
      by (apply Qle_shift_div_l; [assumption | lra]).
    assert (Q1 : (perf (5 + reads)%nat - perf reads + 0) / interval < 1)
      by (apply Qlt_shift_div_r; [assumption | lra]).
    pose proof float_overflow_above_one as Hfo.
    rewrite overflows_false by (try assumption; lra).
    now rewrite truncate_nonneg, Qfloor_unit.
  - intros Hle. eexists. unfold __init__.
    apply tick_quiet; cbn; auto.
  - reflexivity.
Qed.

(** X13. On a running timer [resume] does exactly what two [reset]s in a
    row do: it drops the running span since [_t0] and keeps the bank, so an
    [elapsed] read with the clock unmoved returns the bank alone. *)
Theorem resume_while_running_is_reset (s : t) (n : nat) :
  _is_paused s = false ->
  resume perf (s, n) = (reset perf ;;; reset perf) (s, n) /\
  (~ _interval s == 0 ->
   forall m, perf (S (S m)) == perf (S n) ->
     exists e s1 s2,
       resume perf (s, n) = Returns tt (s1, S (S n)) /\
       elapsed perf (s1, m) = Returns e (s2, S (S (S m))) /\
       e == _accum_time s).
Proof.
  intros Hp. split.
  - unfold resume, reset, bind, assign, perf_counter; cbn [fst snd].
    destruct s as [i t0 tl tt' p h a]. cbn in Hp. subst p. reflexivity.
  - intros Hi m Hm.
    exists ((perf (S (S m)) - perf (S n)) + _accum_time s),
           (set_t0 (perf (S n)) (set_t0 (perf n) (set_is_paused false s))).
    eexists. split; [reflexivity|]. split.
    + exact (elapsed_running_run perf
               (set_t0 (perf (S n)) (set_t0 (perf n) (set_is_paused false s)))
               m eq_refl Hi).
    + lra.
Qed.

End Composition.

(** ** The further properties on concrete timers *)

Ltac compute_run m H :=
  let o := eval vm_compute in m in
  match o with
  | Returns ?a ?w => assert (H : m = Returns a w) by reflexivity
  | Raises ?e ?w => assert (H : m = Raises e w) by reflexivity
  end.

Lemma attribute_writers_witness :
  ~ _interval fresh == 0 /\
  exists v s' n',
    invoke tenths DoPause (fresh, 0%nat) = Returns v (s', n') /\
    _is_paused s' = true /\ _t0 s' = _t0 fresh /\
    _t_last s' = _t_last fresh /\ (0 <= n')%nat.
Proof.
  assert (Hi : ~ _interval fresh == 0) by (vm_compute; discriminate).
  split; [exact Hi|].
  compute_run (invoke tenths DoPause (fresh, 0%nat)) Hrun.
  match type of Hrun with
  | _ = Returns ?v (?s', ?n') =>
      exists v, s', n';
      destruct (attribute_writers tenths DoPause fresh s' 0 n' v Hi Hrun)
        as (_ & P & T & _ & L & _ & N)
  end.
  split; [exact Hrun|]. split; [exact P|].
  split; [apply T; discriminate|]. split; [apply L; discriminate | exact N].
Defined.

Lemma elapsed_nondecreasing_across_reads_witness :
  monotonic tenths /\ 0 < _interval fresh /\
  forallb is_read [GetTick; GetDelta; GetElapsedTicks] = true /\
  exists e1 w1 vs w2 e2 w3,
    elapsed tenths (fresh, 0%nat) = Returns e1 w1 /\
    run_calls tenths [GetTick; GetDelta; GetElapsedTicks] w1 =
      Returns vs w2 /\
    elapsed tenths w2 = Returns e2 w3 /\
    e1 <= e2.
Proof.
  assert (Hpos : 0 < _interval fresh) by reflexivity.
  split; [exact tenths_monotonic|]. split; [exact Hpos|].
  split; [reflexivity|].
  compute_run (elapsed tenths (fresh, 0%nat)) H1.
  match type of H1 with
  | _ = Returns ?e1 ?w1 =>
      compute_run (run_calls tenths [GetTick; GetDelta; GetElapsedTicks] w1) H2;
      match type of H2 with
      | _ = Returns ?vs ?w2 =>
          compute_run (elapsed tenths w2) H3;
          match type of H3 with
          | _ = Returns ?e2 ?w3 =>
              exists e1, w1, vs, w2, e2, w3;
              pose proof (elapsed_nondecreasing_across_reads tenths
                            [GetTick; GetDelta; GetElapsedTicks] fresh 0
                            e1 e2 w1 w2 w3 vs
                            tenths_monotonic Hpos eq_refl H1 H2 H3) as [Hle _]
          end
      end
  end.
  repeat split; assumption.
Defined.

Lemma delta_nonnegative_witness :
  monotonic tenths /\
  reachable tenths (__init__ tenths (1#10) false 0) /\
  exists d w1,
    delta tenths (__init__ tenths (1#10) false 0) = Returns d w1 /\ 0 <= d.
Proof.
  assert (Hr : reachable tenths (__init__ tenths (1#10) false 0))
    by (apply reach_new; reflexivity).
  split; [exact tenths_monotonic|]. split; [exact Hr|].
  exact (proj2 (delta_nonnegative tenths _ tenths_monotonic Hr)).
Defined.

Lemma tick_delta_flag_survives_until_tick_witness :
  ~ _interval decisecond == 0 /\
  _interval decisecond < frozen (35#100) 0%nat - _t_last_tick decisecond /\
  exists x s1 s2,
    tick_delta (frozen (35#100)) (decisecond, 0%nat) = Returns x (s1, 2%nat) /\
    _has_ticked s1 = true /\
    tick (frozen (35#100)) (s1, 2%nat) = Returns true (s2, 4%nat).
Proof.
  assert (Hi : ~ _interval decisecond == 0) by (vm_compute; discriminate).
  assert (Hc : _interval decisecond
               < frozen (35#100) 0%nat - _t_last_tick decisecond)
    by reflexivity.
  split; [exact Hi|]. split; [exact Hc|].
  destruct (tick_delta_flag_survives_until_tick (frozen (35#100)) decisecond 0
              Hi (or_intror Hc)) as (x & s1 & Hrun & Hf & Hnext).
  destruct (Hnext 2%nat) as (s2 & Ht & _).
  exists x, s1, s2. repeat split; assumption.
Defined.

Lemma pause_while_running_adds_bank_twice_witness :
  _is_paused (set_accum_time (2#10) fresh) = false /\
  ~ _interval (set_accum_time (2#10) fresh) == 0 /\
  exists s2,
    pause tenths (set_accum_time (2#10) fresh, 0%nat) =
      Returns tt (s2, 3%nat) /\
    _accum_time s2 == 6#10.
Proof.
  assert (Hi : ~ _interval (set_accum_time (2#10) fresh) == 0)
    by (vm_compute; discriminate).
  split; [reflexivity|]. split; [exact Hi|].
  destruct (pause_while_running_adds_bank_twice tenths
              (set_accum_time (2#10) fresh) 0 eq_refl Hi)
    as (e & s1 & s2 & _ & Hp & _ & Ha & _).
  exists s2. split; [exact Hp|]. rewrite Ha. reflexivity.
Defined.

Lemma zero_interval_raises_witness :
  _interval stalled == 0 /\
  tick_delta tenths (stalled, 1%nat) =
    Raises ZeroDivisionError (set_has_ticked true stalled, 2%nat) /\
  tick_delta tenths (stalled, 0%nat) =
    Returns (tenths 1 - 0) (stalled, 2%nat) /\
  elapsed_ticks tenths (stalled, 0%nat) =
    Raises ZeroDivisionError (stalled, 0%nat).
Proof.
  assert (Hz : _interval stalled == 0) by reflexivity.
  split; [exact Hz|].
  destruct (zero_interval_raises tenths stalled 1 Hz) as (H1 & _ & _).
  destruct (zero_interval_raises tenths stalled 0 Hz) as (_ & H2 & H3).
  split; [apply H1; reflexivity|].
  split; [apply H2; apply Qle_bool_imp_le; reflexivity|].
  exact (proj1 (H3 eq_refl)).
Defined.

Lemma tick_delta_error_propagates_witness :
  tick_delta tenths (degenerate, 1%nat) =
    Raises ZeroDivisionError (set_has_ticked true degenerate, 2%nat) /\
  tick tenths (degenerate, 1%nat) =
    Raises ZeroDivisionError (set_has_ticked true degenerate, 2%nat) /\
  pause tenths (degenerate, 1%nat) =
    Raises ZeroDivisionError (set_has_ticked true degenerate, 2%nat).
Proof.
  assert (Hr : tick_delta tenths (degenerate, 1%nat) =
               Raises ZeroDivisionError (set_has_ticked true degenerate, 2%nat))
    by reflexivity.
  split; [exact Hr|].
  destruct (tick_delta_error_propagates tenths degenerate 1 _ _ Hr)
    as (Ht & _ & Hrun).
  split; [exact Ht|].
  destruct (Hrun eq_refl) as (_ & _ & _ & Hp). exact Hp.
Defined.

Lemma new_timer_reads_witness :
  monotonic tenths /\ 0 < 1 /\
  (exists e w1,
     elapsed tenths (__init__ tenths 1 false 0) = Returns e w1 /\
     e == 5#10 /\
     elapsed_ticks_int tenths (__init__ tenths 1 false 0) = Returns 0%Z w1) /\
  (exists w1, tick tenths (__init__ tenths 1 false 0) = Returns false w1).
Proof.
  assert (Hpos : 0 < 1) by reflexivity.
  split; [exact tenths_monotonic|]. split; [exact Hpos|].
  destruct (new_timer_reads tenths 1 0 tenths_monotonic Hpos)
    as ((e & w1 & He & Hv & _ & Hint) & Htick & _).
  split.
  - exists e, w1. split; [exact He|]. split.
    + rewrite Hv. reflexivity.
    + apply Hint. reflexivity.
  - apply Htick. apply Qle_bool_imp_le. reflexivity.
Defined.

Lemma resume_while_running_is_reset_witness :
  _is_paused (set_accum_time (2#10) fresh) = false /\
  ~ _interval (set_accum_time (2#10) fresh) == 0 /\
  exists e s1 s2,
    resume (frozen (5#2)) (set_accum_time (2#10) fresh, 0%nat) =
      Returns tt (s1, 2%nat) /\
    elapsed (frozen (5#2)) (s1, 2%nat) = Returns e (s2, 5%nat) /\
    e == 2#10.
Proof.
  assert (Hi : ~ _interval (set_accum_time (2#10) fresh) == 0)
    by (vm_compute; discriminate).
  split; [reflexivity|]. split; [exact Hi|].
  destruct (resume_while_running_is_reset (frozen (5#2))
              (set_accum_time (2#10) fresh) 0 eq_refl) as [_ H].
  destruct (H Hi 2%nat) as (e & s1 & s2 & Hr & He & Hv); [reflexivity|].
  exists e, s1, s2. split; [exact Hr|]. split; [exact He|].
  rewrite Hv. reflexivity.
Defined.

End Timer.

(** * The tick and elapsed-ticks methods on binary64 *)

Module Binary64.

Import PrimFloat.

Local Open Scope float_scope.

Record t : Type := mk {
  _interval    : float;
  _t0          : float;
  _t_last      : float;
  _t_last_tick : float;
  _is_paused   : bool;
  _has_ticked  : bool;
  _accum_time  : float
}.

Definition set_t_last_tick (v : float) (s : t) : t :=
  mk (_interval s) (_t0 s) (_t_last s) v
     (_is_paused s) (_has_ticked s) (_accum_time s).

Definition set_has_ticked (v : bool) (s : t) : t :=
  mk (_interval s) (_t0 s) (_t_last s) (_t_last_tick s)
     (_is_paused s) v (_accum_time s).

(** ** Float operations that are not primitives *)

(** The float nearest to [z * 2^e]; [szero] is the sign given to a zero. *)
Definition float_of_dyadic (z e : Z) (szero : bool) : float :=
  FloatOps.SF2Prim
    (SpecFloat.binary_normalize FloatOps.prec FloatOps.emax z e szero).

(** C's [floor]. *)
Definition floor (x : float) : float :=
  match FloatOps.Prim2SF x with
  | SpecFloat.S754_finite s m e =>
      if (0 <=? e)%Z then x
      else
        let d := (2 ^ (- e))%Z in
        let q := (Zpos m / d)%Z in
        let z :=
          if s then (if (Zpos m mod d =? 0)%Z then - q else - (q + 1))%Z
          else q in
        float_of_dyadic z 0 s
  | _ => x
  end.

(** C's [fmod]: the exact remainder of the truncated quotient, with the
    sign of [x]. *)
Definition fmod (x y : float) : float :=
  match FloatOps.Prim2SF x, FloatOps.Prim2SF y with
  | SpecFloat.S754_nan, _ => nan
  | _, SpecFloat.S754_nan => nan
  | SpecFloat.S754_infinity _, _ => nan
  | _, SpecFloat.S754_zero _ => nan
  | SpecFloat.S754_zero _, _ => x
  | SpecFloat.S754_finite _ _ _, SpecFloat.S754_infinity _ => x
  | SpecFloat.S754_finite sx mx ex, SpecFloat.S754_finite _ my ey =>
      let e := Z.min ex ey in
      let nx := (Zpos mx * 2 ^ (ex - e))%Z in
      let ny := (Zpos my * 2 ^ (ey - e))%Z in
      let r := (nx mod ny)%Z in
      float_of_dyadic (if sx then - r else r)%Z e sx
  end.

(** The quotient CPython's [_float_div_mod] computes for [vx // wx], for a
    non-zero [wx]. *)
Definition floor_quotient (vx wx : float) : float :=
  let rem := fmod vx wx in
  let div := (vx - rem) / wx in
  let div :=
    if rem =? 0 then div
    else if xorb (wx <? 0) (rem <? 0) then div - 1 else div in
  if div =? 0 then (if get_sign (vx / wx) then neg_zero else zero)
  else
    let floordiv := floor div in
    if 0.5 <? div - floordiv then floordiv + 1 else floordiv.

(** The integer a finite float truncates to. *)
Definition truncate (x : float) : Z :=
  match FloatOps.Prim2SF x with
  | SpecFloat.S754_finite s m e =>
      let a := if (0 <=? e)%Z then (Zpos m * 2 ^ e)%Z
               else (Zpos m / 2 ^ (- e))%Z in
      if s then (- a)%Z else a
  | _ => 0%Z
  end.

(** ** Effects *)

Inductive exn : Type := ZeroDivisionError | OverflowError | ValueError.

Definition World : Type := (t * nat)%type.

Inductive outcome (A : Type) : Type :=
| Returns (a : A) (w : World)
| Raises (e : exn) (w : World).

Arguments Returns {A} a w.
Arguments Raises {A} e w.

Definition M (A : Type) : Type := World -> outcome A.

Definition ret {A} (a : A) : M A := fun w => Returns a w.

Definition raise {A} (e : exn) : M A := fun w => Raises e w.

Definition bind {A B} (m : M A) (k : A -> M B) : M B :=
  fun w => match m w with
           | Raises e w' => Raises e w'
           | Returns a w' => k a w'
           end.

Notation "x <- m ;; k" := (bind m (fun x => k))
  (at level 61, m at next level, right associativity).
Notation "m ;;; k" := (bind m (fun _ => k))
  (at level 61, right associativity).

Definition attr {A} (f : t -> A) : M A := fun w => Returns (f (fst w)) w.

Definition assign (upd : t -> t) : M unit :=
  fun w => Returns tt (upd (fst w), snd w).

(** [a / b] *)
Definition truediv (a b : float) : M float :=
  if b =? 0 then raise ZeroDivisionError else ret (a / b).

(** [a // b] *)
Definition floordiv (a b : float) : M float :=
  if b =? 0 then raise ZeroDivisionError else ret (floor_quotient a b).

(** [int(x)] *)
Definition int_of_float (x : float) : M Z :=
  if is_nan x then raise ValueError
  else if is_infinity x then raise OverflowError
  else ret (truncate x).

Section WithClock.

Variable perf : nat -> float.

Definition perf_counter : M float :=
  fun w => Returns (perf (snd w)) (fst w, S (snd w)).

Definition __init__ (interval : float) (is_paused : bool) (reads : nat)
  : World :=
  let t0 := perf reads in
  let t_last := perf (S reads) in
  let t_last_tick := perf (S (S reads)) in
  (mk interval t0 t_last t_last_tick is_paused false 0, S (S (S reads))).

Definition tick_delta : M float :=
  now <- perf_counter ;;
  last <- attr _t_last_tick ;;
  let tick_delta := now - last in
  interval <- attr _interval ;;
  (if interval <? tick_delta then
     assign (set_has_ticked true) ;;;
     old <- attr _t_last_tick ;;
     divisor <- attr _interval ;;
     q <- floordiv tick_delta divisor ;;
     factor <- attr _interval ;;
     assign (set_t_last_tick (old + q * factor))
   else ret tt) ;;;
  now' <- perf_counter ;;
  last' <- attr _t_last_tick ;;
  ret (now' - last').

Definition tick : M bool :=
  tick_delta ;;;
  has_ticked <- attr _has_ticked ;;
  if has_ticked then
    assign (set_has_ticked false) ;;;
    ret true
  else ret false.

Definition elapsed : M float :=
  is_paused <- attr _is_paused ;;
  if is_paused then attr _accum_time
  else
    tick ;;;
    now <- perf_counter ;;
    t0 <- attr _t0 ;;
    accum <- attr _accum_time ;;
    ret ((now - t0) + accum).

Definition elapsed_ticks : M float :=
  e <- elapsed ;;
  interval <- attr _interval ;;
  truediv e interval.

Definition elapsed_ticks_int : M Z :=
  x <- elapsed_ticks ;;
  int_of_float x.

End WithClock.

(** ** Sample clocks and instances *)

(** The doubles nearest to 0.1, 0.35 and 2.1, and the least positive one
    (printed [5e-324]). *)
Definition tenth : float := 0x1.999999999999ap-4.
Definition thirty_five_hundredths : float := 0x1.6666666666666p-2.
Definition two_and_a_tenth : float := 0x1.0cccccccccccdp+1.
Definition least_positive : float := 0x1p-1074.

(** A clock that stands still at [x], and one that advances by one second
    per read. *)
Definition frozen (x : float) (n : nat) : float := x.
Definition seconds (n : nat) : float := float_of_dyadic (Z.of_nat n) 0 false.

(** A running timer with a tenth of a second as interval, all timestamps
    [0], nothing banked. *)
Definition decisecond : t := mk tenth 0 0 0 false false 0.

(** ** The code at inputs where rounding or overflow decides *)

(** C3 on the code.  Interval [0.1], tick anchor [0.0], clock standing at
    [2.1]: the first [tick] returns [True] and moves the anchor to [2.0],
    because [2.1 // 0.1] is [20.0] and [20.0 * 0.1] rounds to [2.0]; the
    [tick] that follows at the same reading finds [2.1 - 2.0], which is
    [0.10000000000000009], above the interval, returns [True] a second
    time and moves the anchor to [2.1]. *)
Theorem tick_fires_twice_at_one_instant :
  exists s1 s2,
    tick (frozen two_and_a_tenth) (decisecond, 0%nat) =
      Returns true (s1, 2%nat) /\
    _t_last_tick s1 = 2 /\
    two_and_a_tenth - _t_last_tick s1 = 0x1.99999999999ap-4 /\
    (tenth <? two_and_a_tenth - _t_last_tick s1) = true /\
    tick (frozen two_and_a_tenth) (s1, 2%nat) = Returns true (s2, 4%nat) /\
    _t_last_tick s2 = two_and_a_tenth.
Proof.
  eexists. eexists.
  split; [vm_compute; reflexivity|].
  split; [reflexivity|]. split; [reflexivity|]. split; [reflexivity|].
  split; [vm_compute; reflexivity | reflexivity].
Qed.

(** At the reading [0.35] of the specification's example the anchor moves
    to [0.30000000000000004] and the following [tick] returns [False]. *)
Example tick_fires_once_at_035 :
  exists s1,
    tick (frozen thirty_five_hundredths) (decisecond, 0%nat) =
      Returns true (s1, 2%nat) /\
    tick (frozen thirty_five_hundredths) (s1, 2%nat) =
      Returns false (s1, 4%nat).
Proof.
  eexists. split; [vm_compute; reflexivity | vm_compute; reflexivity].
Qed.

(** A timer constructed with the least positive float as interval: five
    seconds of clock later [elapsed / _interval] is [inf] and
    [elapsed_ticks_int] raises [OverflowError]. *)
Example quotient_is_inf_for_least_interval :
  exists w,
    elapsed_ticks seconds (__init__ seconds least_positive false 0) =
      Returns infinity w /\
    elapsed_ticks_int seconds (__init__ seconds least_positive false 0) =
      Raises OverflowError w.
Proof.
  eexists. split; [vm_compute; reflexivity | vm_compute; reflexivity].
Qed.

End Binary64.
